(** * Release pipeline of the Ribbit Frog firmware

    Shallow embedding of the pieces of the repository that test, build
    and release firmware:
    - the CI job ([on: push/pull_request], job [build]) whose steps run the
      test suite, build the firmware in the ESP-IDF container, upload it to
      Golioth for the [main] branch or a [v*] tag, and store the [firmware]
      directory as a job artifact;
    - the Makefile target [build], which removes the frozen-content
      intermediate, links the board directory, runs the ESP-IDF toolchain
      and copies the four images into [./firmware];
    - the Makefile targets [test] (built on the unix port's interpreter),
      [flash] (esptool after [build]) and [clean]. *)

From Stdlib Require Import String Ascii.
From stdpp Require Import base list gmap strings.

Import ListNotations.
Open Scope string_scope.
Open Scope list_scope.

(* ===================================================================== *)
(** * GitHub Actions expressions *)
(* ===================================================================== *)

Module Expr.

(** GitHub compares strings ignoring case, both with [==] and with
    [startsWith].  The comparison is modelled on the bytes of the
    string, folding the ASCII letters [a-z] to upper case. *)
Definition upcase (c : ascii) : ascii :=
  let n := nat_of_ascii c in
  if (97 <=? n)%nat && (n <=? 122)%nat then ascii_of_nat (n - 32) else c.

Definition char_eq_ci (a b : ascii) : bool :=
  Ascii.eqb (upcase a) (upcase b).

(** [a == b] on strings. *)
Fixpoint str_eq (a b : string) : bool :=
  match a, b with
  | EmptyString, EmptyString => true
  | String x a', String y b' => char_eq_ci x y && str_eq a' b'
  | _, _ => false
  end.

(** [startsWith(searchString, searchValue)]. *)
Fixpoint startsWith (searchString searchValue : string) : bool :=
  match searchValue, searchString with
  | EmptyString, _ => true
  | String y v', String x s' => char_eq_ci x y && startsWith s' v'
  | String _ _, EmptyString => false
  end.

End Expr.

(* ===================================================================== *)
(** * The CI workflow *)
(* ===================================================================== *)

Module Workflow.

(** The environment of a Golioth upload step ([GOLIOTH_API_KEY] comes
    from the repository secrets and plays no part in the step's gate). *)
Record golioth_env := {
  GOLIOTH_PROJECT : string;
  GOLIOTH_BLUEPRINT : string;
  GOLIOTH_ROLLOUT : bool
}.

(** What a step runs. *)
Inductive action :=
| Checkout                         (* actions/checkout@v3 *)
| FetchSubmodules                  (* git submodule update; make submodules *)
| RunTest                          (* make test *)
| RunBuild                         (* docker run espressif/idf:v5.1.2 make *)
| GoliothUpload (env : golioth_env) (* python ./tools/upload-to-golioth.py *)
| UploadArtifact.                  (* actions/upload-artifact@v3, path firmware *)

(** A step: its name, its [if:] condition over [github.ref] (absent when
    the step has none) and what it runs. *)
Record step := {
  step_name : string;
  step_if : option (string -> bool);
  step_run : action
}.

(** Beta V4 blueprint. *)
Definition main_env : golioth_env := {|
  GOLIOTH_PROJECT := "ribbit";
  GOLIOTH_BLUEPRINT := "65c3ebd0f4542d968bf23817";
  GOLIOTH_ROLLOUT := true |}.

(** Production V4 blueprint. *)
Definition release_env : golioth_env := {|
  GOLIOTH_PROJECT := "ribbit";
  GOLIOTH_BLUEPRINT := "638a8a406a504ec89e7b18ee";
  GOLIOTH_ROLLOUT := false |}.

(** [jobs.build.steps], in order. *)
Definition steps : list step := [
  {| step_name := "Checkout repo"; step_if := None; step_run := Checkout |};
  {| step_name := "Fetch submodules"; step_if := None; step_run := FetchSubmodules |};
  {| step_name := "Test"; step_if := None; step_run := RunTest |};
  {| step_name := "Build"; step_if := None; step_run := RunBuild |};
  {| step_name := "Upload to Golioth (Main)";
     step_if := Some (fun ref => Expr.str_eq ref "refs/heads/main");
     step_run := GoliothUpload main_env |};
  {| step_name := "Upload to Golioth (Release)";
     step_if := Some (fun ref => Expr.startsWith ref "refs/tags/v");
     step_run := GoliothUpload release_env |};
  {| step_name := "Upload artifacts"; step_if := None; step_run := UploadArtifact |}
].

(** The ref part of a step's condition. *)
Definition step_cond (s : step) (ref : string) : bool :=
  match step_if s with None => true | Some c => c ref end.

(** A condition without a status function is implicitly
    [success() && cond]: a step runs only while every step before it
    that ran has succeeded. *)
Record job_state := { job_ok : bool; executed : list action }.

Definition init_state : job_state := {| job_ok := true; executed := [] |}.

(** [exec a] is the outcome (success or not) of running [a]. *)
Fixpoint run_steps (exec : action -> bool) (ref : string)
    (ss : list step) (st : job_state) : job_state :=
  match ss with
  | [] => st
  | s :: ss' =>
      let st' :=
        if job_ok st && step_cond s ref
        then {| job_ok := exec (step_run s);
                executed := executed st ++ [step_run s] |}
        else st in
      run_steps exec ref ss' st'
  end.

Definition run_job (exec : action -> bool) (ref : string) : job_state :=
  run_steps exec ref steps init_state.

(** The job's exit status: 0 on success, 1 on failure. *)
Definition job_exit_code (exec : action -> bool) (ref : string) : nat :=
  if job_ok (run_job exec ref) then 0 else 1.

Definition golioth_of (a : action) : option golioth_env :=
  match a with GoliothUpload e => Some e | _ => None end.

Definition is_golioth (a : action) : bool :=
  match a with GoliothUpload _ => true | _ => false end.

(** The deployment targets selected by a ref: the environments of the
    upload steps whose [if:] holds, in workflow order. *)
Definition resolve (ref : string) : list golioth_env :=
  omap (fun s => if step_cond s ref then golioth_of (step_run s) else None)
       steps.

End Workflow.

(* ===================================================================== *)
(** * The Golioth upload script *)
(* ===================================================================== *)

Module Golioth.
Import Workflow.

(** Calls made to the device-management service. *)
Inductive remote_call :=
| AuthCall (project : string)
| UploadCall (blueprint : string) (attempt : nat)
| RolloutCall (blueprint : string).

Inductive response := RespOk | RespAuthError | RespTransient | RespRejected.

Definition is_rollout (c : remote_call) : bool :=
  match c with RolloutCall _ => true | _ => false end.

Section Publish.

(** Bound on the retries of a transient upload failure. *)
Variable max_retries : nat.
(** The service's answer to each call. *)
Variable boundary : remote_call -> response.

(** Modelled from the spec: [tools/upload-to-golioth.py], which the
    workflow runs but which is not among the sources.  Upload attempts
    are retried on transient transport failures, at most [fuel] times;
    authentication and rejection failures surface at once. *)
Fixpoint upload_attempts (bp : string) (k fuel : nat)
    : list remote_call * bool :=
  match fuel with
  | O => ([], false)
  | S fuel' =>
      let c := UploadCall bp k in
      match boundary c with
      | RespOk => ([c], true)
      | RespTransient =>
          let '(cs, ok) := upload_attempts bp (S k) fuel' in (c :: cs, ok)
      | _ => ([c], false)
      end
  end.

(** Modelled from the spec: [tools/upload-to-golioth.py].  It
    authenticates, uploads the release tagged with the blueprint, and
    when [GOLIOTH_ROLLOUT] is true issues one rollout command, which is
    never retried.  Returns the calls made and whether the script exits
    successfully. *)
Definition publish (env : golioth_env) : list remote_call * bool :=
  let a := AuthCall (GOLIOTH_PROJECT env) in
  match boundary a with
  | RespOk =>
      let bp := GOLIOTH_BLUEPRINT env in
      let '(cs, ok) := upload_attempts bp 0 (S max_retries) in
      if ok then
        if GOLIOTH_ROLLOUT env
        then (a :: cs ++ [RolloutCall bp],
              match boundary (RolloutCall bp) with RespOk => true | _ => false end)
        else (a :: cs, true)
      else (a :: cs, false)
  | _ => ([a], false)
  end.

(** A whole job in which the Golioth steps run [publish]; [exec] gives
    the outcome of every other step. *)
Definition exec_with_publish (exec : action -> bool) (a : action) : bool :=
  match a with GoliothUpload e => (publish e).2 | _ => exec a end.

Definition run_job_publish (exec : action -> bool) (ref : string) : job_state :=
  run_job (exec_with_publish exec) ref.

(** Every call the job makes to the service. *)
Definition remote_trace (exec : action -> bool) (ref : string) : list remote_call :=
  flat_map (fun a => match a with GoliothUpload e => (publish e).1 | _ => [] end)
           (executed (run_job_publish exec ref)).

End Publish.

End Golioth.

(* ===================================================================== *)
(** * The Makefile target [build] *)
(* ===================================================================== *)

Module Make.

(** A path is the list of its components. *)
Abbreviation path := (list string).

(** A file-system entry.  A path names an entry as it is spelled: the
    commands that follow symbolic links do so through [stat] below, and
    an entry reached through a link to a directory is recorded under the
    link's name. *)
Inductive node :=
| File (contents : list Byte.byte)
| Dir
| Symlink (target : path).

Abbreviation fs := (gmap path node).

(** The absolute path as the shell spells it. *)
Definition render (p : path) : string := String.append "/" (String.concat "/" p).

Definition basename (p : path) : string :=
  match rev p with x :: _ => x | [] => "" end.

(** Diagnostics printed by the recipe's commands and by make. *)
Inductive diag :=
| RmIsADirectory (p : path)
| MkdirFileExists (p : path)
| CpCannotStat (p : path)
| CpOmittingDirectory (p : path)
| CpSameFile (src dst : path)
| CpCannotOverwriteDirectory (p : path)
| CpTargetNotADirectory (p : path)
| CpDanglingDestination (p : path)
| LnNoSuchFile (p : path)
| LnCannotOverwriteDirectory (p : path)
| ToolchainFailed
| MakeRecipeFailed.

(** The recipe lines. *)
Inductive cmd :=
| RmF (p : path)                              (* rm -f p *)
| LnSfn (target link : path)                  (* ln -sfn target link *)
| MakeC (dir : path) (vars : list (string * string)) (* make -C dir VAR=val ... *)
| MkdirP (p : path)                           (* mkdir -p p *)
| Cp (srcs : list path) (dst : path).         (* cp srcs... dst *)

#[global] Instance byte_eq_dec : EqDecision Byte.byte := Byte.byte_eq_dec.
#[global] Instance node_eq_dec : EqDecision node.
Proof. solve_decision. Defined.
#[global] Instance cmd_eq_dec : EqDecision cmd.
Proof. solve_decision. Defined.

(** The entry a path resolves to, following symbolic links as the
    kernel does: at most [n] of them (a longer chain fails with "Too many
    levels of symbolic links"); a dangling link resolves to nothing. *)
Fixpoint follow (n : nat) (m : fs) (p : path) : option node :=
  match m !! p with
  | Some (Symlink t) => match n with O => None | S n' => follow n' m t end
  | e => e
  end.

(** Linux's limit on the links followed in one lookup. *)
Definition symloop_max : nat := 40.

(** [stat(2)]: never a link. *)
Definition stat (m : fs) (p : path) : option node := follow symloop_max m p.

Definition dir_at (m : fs) (p : path) : bool :=
  match stat m p with Some Dir => true | _ => false end.

(** The directory a new entry at [p] goes into: the root always exists. *)
Definition parent_is_dir (m : fs) (p : path) : bool :=
  match removelast p with [] => true | q => dir_at m q end.

(** The type of the external toolchain (see [toolchain] below). *)
Abbreviation toolchain_t := (path -> list (string * string) -> fs -> bool * fs).

Section Recipe.

(** [CURDIR], the directory make runs in. *)
Variable curdir : path.
(** The ESP-IDF build, an external program: given the directory and the
    variables of the [make -C] line and the file system, it reports its
    exit status and leaves a new file system. *)
Variable toolchain : toolchain_t.

Definition MP_DIR : path := curdir ++ ["vendor"; "micropython"].
Definition PORT_DIR : path := MP_DIR ++ ["ports"; "esp32"].
Definition BOARD : string := "ribbit".
Definition BUILD_DIR : path := PORT_DIR ++ [String.append "build-" BOARD].

Definition frozen_content_c : path := BUILD_DIR ++ ["frozen_content.c"].
Definition firmware_dir : path := curdir ++ ["firmware"].

(** The four files copied by the recipe's [cp] line, in its order. *)
Definition bootloader_bin : path := BUILD_DIR ++ ["bootloader"; "bootloader.bin"].
Definition partition_table_bin : path :=
  BUILD_DIR ++ ["partition_table"; "partition-table.bin"].
Definition ota_data_initial_bin : path := BUILD_DIR ++ ["ota_data_initial.bin"].
Definition micropython_bin : path := BUILD_DIR ++ ["micropython.bin"].

Definition artifact_srcs : list path :=
  [bootloader_bin; partition_table_bin; ota_data_initial_bin; micropython_bin].

(** [rm -f p]: a missing file is no error, a directory is. *)
Definition rm_f (p : path) (m : fs) : bool * list diag * fs :=
  match m !! p with
  | Some Dir => (false, [RmIsADirectory p], m)
  | _ => (true, [], delete p m)
  end.

(** [ln -sfn target link]: replaces [link] (a link to a directory too,
    by [-n]) unless it is a real directory, in which case the link is
    made inside it and a directory already there is an error; a missing
    parent directory is "No such file or directory". *)
Definition ln_sfn (target link : path) (m : fs) : bool * list diag * fs :=
  match m !! link with
  | Some Dir =>
      let l := link ++ [basename target] in
      match m !! l with
      | Some Dir => (false, [LnCannotOverwriteDirectory l], m)
      | _ => (true, [], <[l := Symlink target]> m)
      end
  | _ =>
      if parent_is_dir m link then (true, [], <[link := Symlink target]> m)
      else (false, [LnNoSuchFile link], m)
  end.

(** [mkdir -p p]: creates each missing ancestor of [p] and [p] itself,
    from the root down; an existing directory, or a link to one, is
    kept; any other existing entry (a file, a dangling link, a link to a
    file) stops it with "File exists". *)
Fixpoint mkdir_p_from (done_ : path) (rest : path) (m : fs) : bool * list diag * fs :=
  match rest with
  | [] => (true, [], m)
  | x :: rest' =>
      let q := done_ ++ [x] in
      match m !! q with
      | None => mkdir_p_from q rest' (<[q := Dir]> m)
      | Some _ =>
          if dir_at m q then mkdir_p_from q rest' m
          else (false, [MkdirFileExists q], m)
      end
  end.

Definition mkdir_p (p : path) (m : fs) : bool * list diag * fs :=
  mkdir_p_from [] p m.

(** What [cp] finds at a source path (following symbolic links). *)
Inductive src_kind := SrcFile (c : list Byte.byte) | SrcDir | SrcMissing.

Definition read_src (m : fs) (s : path) : src_kind :=
  match stat m s with
  | Some (File c) => SrcFile c
  | Some Dir => SrcDir
  | _ => SrcMissing
  end.

(** Copy one source into directory [dst] under its base name.  A
    directory there, or a link to one, is an error, and so is a dangling
    link; any other entry of that name is replaced by the copy (for a
    link to a regular file this records the copy under the link's name,
    where cp would write through the link). *)
Definition cp_one (s dst : path) (m : fs) : bool * list diag * fs :=
  match read_src m s with
  | SrcMissing => (false, [CpCannotStat s], m)
  | SrcDir => (false, [CpOmittingDirectory s], m)
  | SrcFile c =>
      let t := dst ++ [basename s] in
      if decide (t = s) then (false, [CpSameFile s t], m)
      else match stat m t with
           | Some Dir => (false, [CpCannotOverwriteDirectory t], m)
           | Some _ => (true, [], <[t := File c]> m)
           | None =>
               match m !! t with
               | Some (Symlink _) => (false, [CpDanglingDestination t], m)
               | _ => (true, [], <[t := File c]> m)
               end
           end
  end.

(** [cp] goes on with the remaining sources after a failed one and exits
    non-zero if any failed. *)
Fixpoint cp_each (srcs : list path) (dst : path) (m : fs) : bool * list diag * fs :=
  match srcs with
  | [] => (true, [], m)
  | s :: rest =>
      let '(ok1, d1, m1) := cp_one s dst m in
      let '(ok2, d2, m2) := cp_each rest dst m1 in
      (ok1 && ok2, d1 ++ d2, m2)
  end.

(** [cp srcs... dst] with several sources: [dst] must be a directory
    (or a link to one). *)
Definition cp (srcs : list path) (dst : path) (m : fs) : bool * list diag * fs :=
  if dir_at m dst then cp_each srcs dst m
  else (false, [CpTargetNotADirectory dst], m).

Definition exec_cmd (c : cmd) (m : fs) : bool * list diag * fs :=
  match c with
  | RmF p => rm_f p m
  | LnSfn t l => ln_sfn t l m
  | MakeC d vs =>
      let '(ok, m') := toolchain d vs m in
      (ok, if ok then [] else [ToolchainFailed], m')
  | MkdirP p => mkdir_p p m
  | Cp ss d => cp ss d m
  end.

(** The outcome of a make recipe: exit status, diagnostics, the final
    file system, and each line run together with the file system it
    started from. *)
Record make_result := {
  make_ok : bool;
  make_diags : list diag;
  make_fs : fs;
  make_trace : list (cmd * fs)
}.

(** make runs the lines in order and stops at the first that fails. *)
Fixpoint run_recipe (cs : list cmd) (m : fs) : make_result :=
  match cs with
  | [] => {| make_ok := true; make_diags := []; make_fs := m; make_trace := [] |}
  | c :: rest =>
      let '(ok, ds, m') := exec_cmd c m in
      if ok then
        let r := run_recipe rest m' in
        {| make_ok := make_ok r; make_diags := ds ++ make_diags r;
           make_fs := make_fs r; make_trace := (c, m) :: make_trace r |}
      else
        {| make_ok := false; make_diags := ds ++ [MakeRecipeFailed];
           make_fs := m'; make_trace := [(c, m)] |}
  end.

(** The [make -C] line of the recipe. *)
Definition toolchain_vars : list (string * string) :=
  [("BOARD", BOARD); ("FROZEN_MANIFEST", render (curdir ++ ["manifest.py"]))].

Definition toolchain_cmd : cmd := MakeC PORT_DIR toolchain_vars.

Definition board_link_cmd : cmd :=
  LnSfn (curdir ++ ["board"]) (PORT_DIR ++ ["boards"; "ribbit"]).

(** The last two lines: collecting the images into a directory. *)
Definition bundle_cmds (dst : path) : list cmd :=
  [MkdirP dst; Cp artifact_srcs dst].

Definition build_recipe : list cmd :=
  [RmF frozen_content_c; board_link_cmd; toolchain_cmd] ++ bundle_cmds firmware_dir.

Definition bundle (dst : path) (m : fs) : make_result := run_recipe (bundle_cmds dst) m.

Definition make_build (m : fs) : make_result := run_recipe build_recipe m.

End Recipe.



End Make.

(* ===================================================================== *)
(** * The Makefile targets [test], [flash] and [clean] *)
(* ===================================================================== *)

Module Targets.
Import Make.

Section Targets.

Variable curdir : path.
(** The sub-make, as in [Make]: the [make -C] lines of every target go
    through it. *)
Variable toolchain : toolchain_t.
(** The unix MicroPython interpreter run by the [test] line, given its
    working directory, its arguments and the file system; the result is
    its exit status. *)
Variable interp : path -> list string -> fs -> bool.
(** esptool.py's writes to the device, given the (offset, image) pairs
    it has read; the result is its exit status. *)
Variable esptool : list (Z * list Byte.byte) -> bool.

Definition UNIX_DIR : path := MP_DIR curdir ++ ["ports"; "unix"].

(** The target of the rule for the unix interpreter. *)
Definition unix_micropython : path := UNIX_DIR ++ ["build-standard"; "micropython"].

(** [make -C ${MP_DIR}/ports/unix -j FROZEN_MANIFEST=${CURDIR}/manifest-unix.py]
    ([-j] only sets the number of parallel jobs). *)
Definition unix_build_cmd : cmd :=
  MakeC (MP_DIR curdir ++ ["ports"; "unix"])
        [("FROZEN_MANIFEST", render (curdir ++ ["manifest-unix.py"]))].

(** make looks a file target up with stat, which follows a link. *)
Definition target_exists (m : fs) (p : path) : bool :=
  match read_src m p with SrcMissing => false | _ => true end.

(** The interpreter's rule has no prerequisites: its recipe runs only
    when the file is missing. *)
Definition make_unix (m : fs) : make_result :=
  if target_exists m unix_micropython then run_recipe toolchain [] m
  else run_recipe toolchain [unix_build_cmd] m.

Definition modules_dir : path := curdir ++ ["modules"].

Definition test_args : list string :=
  ["-m"; "unittest"; "discover"; "-p"; "*_test.py"].

(** [cd modules ; ...]: a failed [cd] leaves the shell in [CURDIR] and
    [;] goes on with the next command. *)
Definition test_cwd (m : fs) : path :=
  match read_src m modules_dir with SrcDir => modules_dir | _ => curdir end.

(** The outcome of [make test]: its status, the run of the
    prerequisite's rule, and the directory the interpreter ran in (if it
    was started). *)
Record test_result := {
  test_ok : bool;
  test_prereq : make_result;
  test_ran : option path
}.

(** make brings the prerequisite up to date first and stops if that
    fails.  The test line exits with the status of its last command; a
    program path that is not a regular file cannot be executed (status
    126 or 127), and the interpreter is not started. *)
Definition make_test (m : fs) : test_result :=
  let r := make_unix m in
  if make_ok r then
    match read_src (make_fs r) unix_micropython with
    | SrcFile _ =>
        {| test_ok := interp (test_cwd (make_fs r)) test_args (make_fs r);
           test_prereq := r; test_ran := Some (test_cwd (make_fs r)) |}
    | _ => {| test_ok := false; test_prereq := r; test_ran := None |}
    end
  else {| test_ok := false; test_prereq := r; test_ran := None |}.

(** [rm -rf p]: removes [p] and everything below it; a missing [p] is no
    error. *)
Definition rm_rf (p : path) (m : fs) : fs :=
  filter (fun kv : path * node => ~ (p `prefix_of` kv.1)) m.

Definition unix_build_dir : path := UNIX_DIR ++ ["build-standard"].

(** [make clean]: [rm -rf ${BUILD_DIR} ${UNIX_DIR}/build-standard]. *)
Definition make_clean (m : fs) : fs :=
  rm_rf unix_build_dir (rm_rf (BUILD_DIR curdir) m).

(** The (offset, file) pairs of the esptool line; the file names are
    relative to [CURDIR], where make runs the recipe. *)
Definition flash_args : list (Z * path) :=
  [(0x0, firmware_dir curdir ++ ["bootloader.bin"]);
   (0x8000, firmware_dir curdir ++ ["partition-table.bin"]);
   (0xd000, firmware_dir curdir ++ ["ota_data_initial.bin"]);
   (0x10000, firmware_dir curdir ++ ["micropython.bin"])]%Z.

(** esptool reads every file before it writes; a file it cannot read
    stops it before any write. *)
Definition read_image (m : fs) (a : Z * path) : option (Z * list Byte.byte) :=
  match read_src m a.2 with SrcFile c => Some (a.1, c) | _ => None end.

Definition read_images (m : fs) : option (list (Z * list Byte.byte)) :=
  mapM (read_image m) flash_args.



(** Two written images share a byte of flash. *)
Definition overlaps (a b : Z * list Byte.byte) : bool :=
  (0 <? Z.of_nat (length a.2))%Z && (0 <? Z.of_nat (length b.2))%Z &&
  (a.1 <? b.1 + Z.of_nat (length b.2))%Z && (b.1 <? a.1 + Z.of_nat (length a.2))%Z.

Fixpoint disjoint_images (imgs : list (Z * list Byte.byte)) : bool :=
  match imgs with
  | [] => true
  | a :: rest => forallb (fun b => negb (overlaps a b)) rest && disjoint_images rest
  end.

End Targets.

End Targets.

(* ===================================================================== *)
(** * Concrete runs *)
(* ===================================================================== *)

Module Scenarios.
Import Make Targets.

(** The CI job runs make in [/app] inside the ESP-IDF container. *)
Definition ci_curdir : path := ["app"].

(** An ESP-IDF run that exits 0 after writing the given files. *)
Definition idf_writes (imgs : list (path * list Byte.byte)) : toolchain_t :=
  fun _ _ m => (true, fold_right (fun '(p, c) acc => <[p := File c]> acc) m imgs).

Definition images (app : list Byte.byte) : list (path * list Byte.byte) :=
  [(bootloader_bin ci_curdir, [Byte.x01]);
   (partition_table_bin ci_curdir, [Byte.x02]);
   (ota_data_initial_bin ci_curdir, [Byte.x03]);
   (micropython_bin ci_curdir, app)].

(** A build that produces all four images. *)
Definition idf_full : toolchain_t := idf_writes (images [Byte.x10; Byte.x11]).
(** A build that exits 0 without producing the application image. *)
Definition idf_no_app : toolchain_t := idf_writes (take 3 (images [])).

(** A fresh checkout, as far as the recipe looks at it: the port's
    [boards] directory, where the board link goes. *)
Definition fs_checkout : fs := {[ PORT_DIR ci_curdir ++ ["boards"] := Dir ]}.

(** A working tree left by an earlier build: a frozen-content
    intermediate and an earlier application image in [./firmware]. *)
Definition fs_stale : fs :=
  list_to_map
    [(PORT_DIR ci_curdir ++ ["boards"], Dir);
     (frozen_content_c ci_curdir, File [Byte.x53]);
     (firmware_dir ci_curdir, Dir);
     (firmware_dir ci_curdir ++ ["micropython.bin"], File [Byte.xaa])].

(** The file system the toolchain starts from in [make_build] on
    [fs_stale]: [frozen_content.c] removed, the board linked. *)
Definition fs_stale_at_toolchain : fs :=
  <[PORT_DIR ci_curdir ++ ["boards"; "ribbit"] := Symlink (ci_curdir ++ ["board"])]>
    (delete (frozen_content_c ci_curdir) fs_stale).

Definition fs_stale_no_app : fs :=
  snd (idf_no_app (PORT_DIR ci_curdir) (toolchain_vars ci_curdir) fs_stale_at_toolchain).

(** The CI job's steps as they turn out when the Build step exits with
    the status of the make run [r] and every other step succeeds. *)
Definition ci_exec (r : make_result) : Workflow.action -> bool :=
  fun a => match a with Workflow.RunBuild => make_ok r | _ => true end.

(** A tree where [frozen_content.c] is a directory, and one where the
    board's place in the port is a real directory. *)
Definition fs_frozen_dir : fs := {[ frozen_content_c ci_curdir := Dir ]}.
Definition fs_board_dir : fs := {[ PORT_DIR ci_curdir ++ ["boards"; "ribbit"] := Dir ]}.

End Scenarios.

(* ===================================================================== *)
(** * Facts about the workflow *)
(* ===================================================================== *)

Import Workflow Golioth.

Lemma char_eq_ci_refl (c : ascii) : Expr.char_eq_ci c c = true.
Proof. unfold Expr.char_eq_ci. apply Ascii.eqb_refl. Qed.

Lemma char_eq_ci_h_t (c : ascii) :
  Expr.char_eq_ci c "h" = true -> Expr.char_eq_ci c "t" = false.
Proof.
  unfold Expr.char_eq_ci. intros H.
  apply Ascii.eqb_eq in H. rewrite H. reflexivity.
Qed.

(** A string that starts with [p] starts with it ignoring case. *)
Lemma prefix_startsWith (p s : string) :
  String.prefix p s = true -> Expr.startsWith s p = true.
Proof.
  revert s. induction p as [|a p IH]; intros s H; [destruct s; reflexivity|].
  destruct s as [|b s]; [discriminate|].
  simpl in H. destruct (ascii_dec a b) as [<-|]; [|discriminate].
  simpl. rewrite char_eq_ci_refl. simpl. now apply IH.
Qed.

(** The two upload gates never hold together: the sixth character of the
    ref would have to be both [h] and [t]. *)
Lemma upload_gates_exclusive (ref : string) :
  Expr.str_eq ref "refs/heads/main" = true ->
  Expr.startsWith ref "refs/tags/v" = false.
Proof.
  intros H.
  destruct ref as [|a1 [|a2 [|a3 [|a4 [|a5 [|a6 r]]]]]]; simpl in *;
    repeat match goal with
           | H : _ && _ = true |- _ => apply andb_prop in H as [? ?]
           end; try congruence.
  repeat match goal with
         | H : Expr.char_eq_ci ?c _ = true |- _ => rewrite H; clear H
         end.
  simpl. match goal with
         | H : Expr.char_eq_ci ?c "h" = true |- _ => rewrite (char_eq_ci_h_t c H)
         end.
  reflexivity.
Qed.

(** [resolve] is decided by the two gates. *)
Lemma resolve_eq (ref : string) :
  resolve ref =
  if Expr.str_eq ref "refs/heads/main" then [main_env]
  else if Expr.startsWith ref "refs/tags/v" then [release_env] else [].
Proof.
  unfold resolve, step_cond. simpl.
  destruct (Expr.str_eq ref "refs/heads/main") eqn:E1.
  - rewrite (upload_gates_exclusive ref E1). reflexivity.
  - destruct (Expr.startsWith ref "refs/tags/v"); reflexivity.
Qed.

(** Runs the job: rewrites the gates with their known values and does
    case analysis on the outcome of every step that has run. *)
Ltac step_job exec :=
  repeat (try unfold step_cond; simpl;
    first
      [ match goal with
        | H : Expr.str_eq ?r ?t = _ |- context [Expr.str_eq ?r ?t] => rewrite H
        | H : Expr.startsWith ?r ?t = _ |- context [Expr.startsWith ?r ?t] => rewrite H
        end
      | match goal with
        | |- context [exec ?a] =>
            let E := fresh "E" in destruct (exec a) eqn:E
        end ]);
  simpl.

(** Splits on the two gates; both holding is impossible. *)
Ltac case_gates ref :=
  let E1 := fresh "G1" in let E2 := fresh "G2" in
  destruct (Expr.str_eq ref "refs/heads/main") eqn:E1;
  [pose proof (upload_gates_exclusive ref E1) as E2
  |destruct (Expr.startsWith ref "refs/tags/v") eqn:E2].

(** At most one Golioth step runs in any job. *)
Lemma golioth_steps_le1 (exec : action -> bool) (ref : string) :
  length (List.filter is_golioth (executed (run_job exec ref))) <= 1.
Proof.
  unfold run_job, step_cond. case_gates ref; step_job exec; simpl; lia.
Qed.

(** No action of the Golioth kind is in a list of other actions. *)
Lemma golioth_not_in (e : golioth_env) (l : list action) :
  List.filter is_golioth l = [] -> GoliothUpload e ∉ l.
Proof.
  induction l as [|a l IH]; intros H Hin; [by apply elem_of_nil in Hin|].
  apply elem_of_cons in Hin as [<-|Hin]; simpl in H; [discriminate|].
  destruct (is_golioth a); [discriminate|]. by apply IH.
Qed.

(** Claim C1 (as amended).  The upload gates compare [github.ref] with
    [refs/heads/main] and test it for the prefix [refs/tags/v], both
    ignoring case.  [refs/heads/main] selects the beta blueprint with
    rollout on, every ref starting with [refs/tags/v] selects the
    production blueprint with rollout off, [refs/heads/feature/x] selects
    nothing, and in general the selection is decided by the two
    case-insensitive comparisons ([refs/tags/V1.2.0] and
    [refs/heads/MAIN] select a target too). *)
Theorem resolve_default_catalog :
  (resolve "refs/heads/main" = [main_env] /\
   GOLIOTH_BLUEPRINT main_env = "65c3ebd0f4542d968bf23817" /\
   GOLIOTH_ROLLOUT main_env = true) /\
  (forall ref, String.prefix "refs/tags/v" ref = true ->
     resolve ref = [release_env]) /\
  (GOLIOTH_BLUEPRINT release_env = "638a8a406a504ec89e7b18ee" /\
   GOLIOTH_ROLLOUT release_env = false) /\
  resolve "refs/heads/feature/x" = [] /\
  (forall ref, resolve ref =
     if Expr.str_eq ref "refs/heads/main" then [main_env]
     else if Expr.startsWith ref "refs/tags/v" then [release_env] else []).
Proof.
  split; [repeat split; reflexivity|].
  split.
  - intros ref H. rewrite resolve_eq.
    pose proof (prefix_startsWith _ _ H) as Hs.
    destruct (Expr.str_eq ref "refs/heads/main") eqn:E.
    + rewrite (upload_gates_exclusive ref E) in Hs. discriminate.
    + now rewrite Hs.
  - split; [split; reflexivity|]. split; [reflexivity|]. exact resolve_eq.
Qed.

(** Claim C1 fails as stated: [refs/tags/V1.2.0] is neither
    [refs/heads/main] nor starts with [refs/tags/v], yet it selects the
    production target, because GitHub's [startsWith] ignores case. *)
Lemma resolve_uppercase_tag_selects_production :
  String.prefix "refs/tags/v" "refs/tags/V1.2.0" = false /\
  "refs/tags/V1.2.0" <> "refs/heads/main" /\
  resolve "refs/tags/V1.2.0" = [release_env].
Proof. split; [reflexivity|]. split; [discriminate|reflexivity]. Qed.

(** Claim C2.  When the ref selects no target, no Golioth upload step
    runs, and the job exits with status 0 exactly when its other steps
    (checkout, submodules, test, build, artifact upload) succeed: the
    unmatched ref adds no failure of its own. *)
Theorem nonmatching_ref_no_upload (exec : action -> bool) (ref : string) :
  resolve ref = [] ->
  (forall e, GoliothUpload e ∉ executed (run_job exec ref)) /\
  (job_exit_code exec ref = 0 <->
   Forall (fun a => exec a = true)
     [Checkout; FetchSubmodules; RunTest; RunBuild; UploadArtifact]).
Proof.
  rewrite resolve_eq. intros H.
  destruct (Expr.str_eq ref "refs/heads/main") eqn:G1; [discriminate|].
  destruct (Expr.startsWith ref "refs/tags/v") eqn:G2; [discriminate|].
  unfold job_exit_code, run_job. step_job exec;
    (split; [intros e; apply golioth_not_in; reflexivity|]);
    rewrite !Forall_cons, Forall_nil; intuition congruence.
Qed.

Lemma nonmatching_ref_no_upload_witness :
  resolve "refs/heads/feature/x" = [] /\
  (forall e, GoliothUpload e ∉
     executed (run_job (fun _ => true) "refs/heads/feature/x")) /\
  job_exit_code (fun _ => true) "refs/heads/feature/x" = 0.
Proof.
  split; [reflexivity|].
  destruct (nonmatching_ref_no_upload (fun _ => true) "refs/heads/feature/x"
              eq_refl) as [H1 H2].
  split; [exact H1|]. apply H2.
  repeat constructor.
Defined.

(** Claim C10.  The two upload gates are disjoint (also under GitHub's
    case-insensitive comparison), so whatever the ref and whatever the
    steps' outcomes, at most one of the two Golioth upload steps runs. *)
Theorem upload_gates_disjoint :
  (forall ref, ~ (Expr.str_eq ref "refs/heads/main" = true /\
                  Expr.startsWith ref "refs/tags/v" = true)) /\
  (forall (exec : action -> bool) ref,
     length (List.filter is_golioth (executed (run_job exec ref))) <= 1).
Proof.
  split.
  - intros ref [H1 H2]. rewrite (upload_gates_exclusive ref H1) in H2.
    discriminate.
  - exact golioth_steps_le1.
Qed.

(** The upload attempts never issue a rollout. *)
Lemma upload_attempts_no_rollout (boundary : remote_call -> response)
    (bp : string) (fuel k : nat) :
  List.filter is_rollout (upload_attempts boundary bp k fuel).1 = [].
Proof.
  revert k. induction fuel as [|fuel IH]; intros k; [reflexivity|].
  simpl. destruct (boundary (UploadCall bp k)); try reflexivity.
  specialize (IH (S k)).
  destruct (upload_attempts boundary bp (S k) fuel) as [cs ok]. exact IH.
Qed.

(** One run of the upload script issues at most one rollout. *)
Lemma publish_rollout_le1 (max_retries : nat) (boundary : remote_call -> response)
    (e : golioth_env) :
  length (List.filter is_rollout (publish max_retries boundary e).1) <= 1.
Proof.
  unfold publish.
  pose proof (upload_attempts_no_rollout boundary (GOLIOTH_BLUEPRINT e)
                (S max_retries) 0) as H.
  destruct (upload_attempts boundary (GOLIOTH_BLUEPRINT e) 0 (S max_retries))
    as [cs ok].
  simpl in H.
  destruct (boundary (AuthCall (GOLIOTH_PROJECT e))), ok, (GOLIOTH_ROLLOUT e);
    simpl; rewrite ?List.filter_app, ?length_app, ?H; simpl; lia.
Qed.

Lemma rollouts_of_flat_map (g : action -> list remote_call) (l : list action) :
  (forall a, length (List.filter is_rollout (g a)) <= if is_golioth a then 1 else 0) ->
  length (List.filter is_rollout (flat_map g l)) <=
  length (List.filter is_golioth l).
Proof.
  intros Hg. induction l as [|a l IH]; [simpl; lia|].
  simpl. rewrite List.filter_app, length_app.
  specialize (Hg a). destruct (is_golioth a); simpl; lia.
Qed.

(** Claim C9 (the upload script is modelled from the spec).  In one run
    of the job, the upload script runs at most once, hence at most once
    per target, and at most one rollout command reaches the service,
    whatever the service answers and however many transport retries are
    allowed. *)
Theorem publish_at_most_once_per_run (max_retries : nat)
    (boundary : remote_call -> response) (exec : action -> bool) (ref : string) :
  length (List.filter is_golioth
            (executed (run_job_publish max_retries boundary exec ref))) <= 1 /\
  length (List.filter is_rollout (remote_trace max_retries boundary exec ref)) <= 1.
Proof.
  pose proof (golioth_steps_le1 (exec_with_publish max_retries boundary exec) ref)
    as Hg.
  split; [exact Hg|].
  unfold remote_trace. etransitivity; [|exact Hg].
  apply rollouts_of_flat_map.
  intros [| | | |e|]; simpl; try lia. apply publish_rollout_le1.
Qed.

(* ===================================================================== *)
(** * Facts about the [build] recipe *)
(* ===================================================================== *)

Import Make.

Lemma basename_snoc (p : path) (x : string) : basename (p ++ [x]) = x.
Proof. unfold basename. rewrite rev_unit. reflexivity. Qed.

(** An entry that is not a link resolves to itself. *)
Lemma follow_plain (n : nat) (m : fs) (p : path) :
  (forall t, m !! p <> Some (Symlink t)) -> follow n m p = m !! p.
Proof.
  intros H. destruct n; simpl; destruct (m !! p) as [[]|] eqn:E; try reflexivity;
    exfalso; eapply H; reflexivity.
Qed.

Lemma stat_plain (m : fs) (p : path) :
  (forall t, m !! p <> Some (Symlink t)) -> stat m p = m !! p.
Proof. apply follow_plain. Qed.


Lemma read_src_none (m : fs) (p : path) : m !! p = None -> read_src m p = SrcMissing.
Proof.
  intros H. unfold read_src. rewrite stat_plain, H; [reflexivity|]. rewrite H. congruence.
Qed.


Lemma dir_at_dir (m : fs) (p : path) : m !! p = Some Dir -> dir_at m p = true.
Proof.
  intros H. unfold dir_at. rewrite stat_plain, H; [reflexivity|]. rewrite H. congruence.
Qed.

Lemma dir_at_none (m : fs) (p : path) : m !! p = None -> dir_at m p = false.
Proof.
  intros H. unfold dir_at. rewrite stat_plain, H; [reflexivity|]. rewrite H. congruence.
Qed.

(** [cp] of one source changes only the entry it copies to. *)
Lemma cp_one_frame (s dst : path) (m m' : fs) ok ds :
  cp_one s dst m = (ok, ds, m') ->
  forall p, p <> dst ++ [basename s] -> m' !! p = m !! p.
Proof.
  unfold cp_one. intros H p Hp.
  destruct (read_src m s) as [c| |]; [|injection H as <- <- <-; reflexivity..].
  destruct (decide _); [injection H as <- <- <-; reflexivity|].
  destruct (stat m (dst ++ [basename s])) as [[]|];
    [..|destruct (m !! (dst ++ [basename s])) as [[]|]];
    injection H as <- <- <-; try reflexivity;
    rewrite lookup_insert_ne; congruence.
Qed.

(** [cp] of one source writes a regular file: it never removes an
    entry nor turns a regular file into something else. *)
Lemma cp_one_keeps_files (s dst : path) (m m' : fs) ok ds :
  cp_one s dst m = (ok, ds, m') ->
  forall p c, m !! p = Some (File c) -> exists c', m' !! p = Some (File c').
Proof.
  unfold cp_one. intros H p c Hp.
  destruct (read_src m s) as [c0| |]; [|injection H as <- <- <-; eauto..].
  destruct (decide _); [injection H as <- <- <-; eauto|].
  destruct (stat m (dst ++ [basename s])) as [[]|];
    [..|destruct (m !! (dst ++ [basename s])) as [[]|]];
    injection H as <- <- <-; eauto;
    (destruct (decide (dst ++ [basename s] = p)) as [<-|Hne];
     [rewrite lookup_insert_eq; eauto|rewrite lookup_insert_ne; eauto]).
Qed.


Lemma cp_one_missing (s dst : path) (m : fs) :
  m !! s = None -> cp_one s dst m = (false, [CpCannotStat s], m).
Proof. intros H. unfold cp_one. rewrite (read_src_none _ _ H). reflexivity. Qed.


Lemma cp_each_keeps_files (srcs : list path) (dst : path) (m m' : fs) ok ds :
  cp_each srcs dst m = (ok, ds, m') ->
  forall p c, m !! p = Some (File c) -> exists c', m' !! p = Some (File c').
Proof.
  revert m ok ds. induction srcs as [|s0 rest IH]; intros m ok ds H p c Hp.
  - injection H as <- <- <-. eauto.
  - simpl in H.
    destruct (cp_one s0 dst m) as [[ok1 d1] m1] eqn:E1.
    destruct (cp_each rest dst m1) as [[ok2 d2] m2] eqn:E2.
    injection H as <- <- <-.
    destruct (cp_one_keeps_files _ _ _ _ _ _ E1 p c Hp) as [c1 H1].
    exact (IH _ _ _ E2 p c1 H1).
Qed.





(** A source with no entry makes [cp] fail, naming it, provided no
    earlier copy lands on it. *)
Lemma cp_each_missing (srcs : list path) (dst : path) (m m' : fs) ok ds s :
  cp_each srcs dst m = (ok, ds, m') ->
  s ∈ srcs -> m !! s = None ->
  (forall s', s' ∈ srcs -> s <> dst ++ [basename s']) ->
  ok = false /\ CpCannotStat s ∈ ds.
Proof.
  revert m ok ds. induction srcs as [|s0 rest IH]; intros m ok ds H Hs Hm Hd;
    [by apply elem_of_nil in Hs|].
  simpl in H.
  destruct (cp_one s0 dst m) as [[ok1 d1] m1] eqn:E1.
  destruct (cp_each rest dst m1) as [[ok2 d2] m2] eqn:E2.
  injection H as <- <- <-.
  apply elem_of_cons in Hs as [->|Hs].
  - rewrite (cp_one_missing _ _ _ Hm) in E1. injection E1 as <- <- <-.
    split; [reflexivity|]. apply elem_of_app; left. by apply list_elem_of_singleton.
  - assert (Hm1 : m1 !! s = None).
    { rewrite (cp_one_frame _ _ _ _ _ _ E1); [exact Hm|].
      apply Hd. by apply elem_of_cons; left. }
    destruct (IH _ _ _ E2 Hs Hm1) as [-> Hin];
      [intros s' Hs'; apply Hd; by apply elem_of_cons; right|].
    split; [apply andb_false_r|]. apply elem_of_app; right; exact Hin.
Qed.

(** [mkdir -p] only adds directories, and only at ancestors of the
    directory it creates. *)
Lemma mkdir_p_from_effect (done_ rest : path) (m m' : fs) ok ds :
  mkdir_p_from done_ rest m = (ok, ds, m') ->
  forall q, m' !! q = m !! q \/
            (m !! q = None /\ m' !! q = Some Dir /\ exists k, done_ ++ rest = q ++ k).
Proof.
  revert done_ m. induction rest as [|x rest IH]; intros done_ m H q.
  - injection H as <- <- <-. by left.
  - simpl in H. destruct (m !! (done_ ++ [x])) as [e|] eqn:Eq.
    + destruct (dir_at m (done_ ++ [x])); [|injection H as <- <- <-; by left].
      destruct (IH _ _ H q) as [Hq|(Hn & Hd & k & Hk)]; [by left|].
      right. repeat split; [exact Hn|exact Hd|]. exists k. rewrite <- Hk, <- app_assoc. reflexivity.
    + destruct (IH _ _ H q) as [Hq|(Hn & Hd & k & Hk)].
      * destruct (decide (done_ ++ [x] = q)) as [<-|Hne].
        -- right. rewrite lookup_insert_eq in Hq. repeat split; [exact Eq|exact Hq|].
           exists rest. rewrite <- app_assoc. reflexivity.
        -- left. rewrite lookup_insert_ne in Hq by exact Hne. exact Hq.
      * rewrite lookup_insert_None in Hn. destruct Hn as [Hn _].
        right. repeat split; [exact Hn|exact Hd|]. exists k. rewrite <- Hk, <- app_assoc. reflexivity.
Qed.

(** make runs a concatenation of recipes as the first, then the second. *)
Lemma run_recipe_app_ok (toolchain : toolchain_t) (cs1 cs2 : list cmd) (m : fs) :
  make_ok (run_recipe toolchain cs1 m) = true ->
  run_recipe toolchain (cs1 ++ cs2) m =
  let r1 := run_recipe toolchain cs1 m in
  let r2 := run_recipe toolchain cs2 (make_fs r1) in
  {| make_ok := make_ok r2; make_diags := make_diags r1 ++ make_diags r2;
     make_fs := make_fs r2; make_trace := make_trace r1 ++ make_trace r2 |}.
Proof.
  revert m. induction cs1 as [|c cs1 IH]; intros m H.
  - simpl. destruct (run_recipe toolchain cs2 m); reflexivity.
  - simpl in *. destruct (exec_cmd toolchain c m) as [[ok ds] m'].
    destruct ok; [|discriminate]. simpl in H. rewrite (IH _ H). simpl.
    rewrite app_assoc. reflexivity.
Qed.

Lemma run_recipe_app_fail (toolchain : toolchain_t) (cs1 cs2 : list cmd) (m : fs) :
  make_ok (run_recipe toolchain cs1 m) = false ->
  run_recipe toolchain (cs1 ++ cs2) m = run_recipe toolchain cs1 m.
Proof.
  revert m. induction cs1 as [|c cs1 IH]; intros m H; [discriminate|].
  simpl in *. destruct (exec_cmd toolchain c m) as [[ok ds] m'].
  destruct ok; [|reflexivity]. simpl in H. rewrite (IH _ H). reflexivity.
Qed.

(** Unfolds the recipe's paths to [curdir ++ literal components]. *)
Ltac norm_paths :=
  unfold frozen_content_c, firmware_dir, micropython_bin, bootloader_bin,
    partition_table_bin, ota_data_initial_bin, BUILD_DIR, PORT_DIR, MP_DIR,
    BOARD in *;
  rewrite <- ?app_assoc in *; simpl in *.

Ltac paths_differ :=
  let H := fresh in
  intros H; norm_paths; rewrite <- ?app_assoc in H; simpl in H;
  apply List.app_inv_head in H; discriminate.

(** [ln -sfn] adds one link, at [link] or inside it, or changes
    nothing. *)
Lemma ln_sfn_effect (t l : path) (m m' : fs) ok ds :
  ln_sfn t l m = (ok, ds, m') ->
  m' = m \/ m' = <[l := Symlink t]> m \/ m' = <[l ++ [basename t] := Symlink t]> m.
Proof.
  unfold ln_sfn. intros H.
  destruct (m !! l) as [[]|];
    [| destruct (m !! (l ++ [basename t])) as [[]|] |..];
    try destruct (parent_is_dir m l); injection H as _ _ <-; auto.
Qed.

(** The first three lines: rm, ln and the toolchain.  When they succeed,
    the toolchain ran once, on a file system without
    [frozen_content.c], and its output is what the last lines start
    from. *)
Definition prefix_cmds (curdir : path) : list cmd :=
  [RmF (frozen_content_c curdir); board_link_cmd curdir; toolchain_cmd curdir].

Lemma build_recipe_split (curdir : path) :
  build_recipe curdir = prefix_cmds curdir ++ bundle_cmds curdir (firmware_dir curdir).
Proof. reflexivity. Qed.

Lemma prefix_run (curdir : path) (toolchain : toolchain_t) (m0 : fs) :
  let r := run_recipe toolchain (prefix_cmds curdir) m0 in
  (forall m_in, (toolchain_cmd curdir, m_in) ∈ make_trace r ->
     m_in !! frozen_content_c curdir = None /\
     make_ok r = (toolchain (PORT_DIR curdir) (toolchain_vars curdir) m_in).1 /\
     make_fs r = (toolchain (PORT_DIR curdir) (toolchain_vars curdir) m_in).2) /\
  (make_ok r = true -> exists m_in, (toolchain_cmd curdir, m_in) ∈ make_trace r).
Proof.
  unfold prefix_cmds. simpl.
  destruct (rm_f (frozen_content_c curdir) m0) as [[ok1 ds1] m1] eqn:E1.
  assert (Hm1 : ok1 = true -> m1 !! frozen_content_c curdir = None).
  { unfold rm_f in E1. destruct (m0 !! frozen_content_c curdir) as [[]|];
      injection E1 as <- <- <-; try discriminate; intros _; apply lookup_delete_eq. }
  destruct ok1; [|simpl; split; [|discriminate]; intros m_in Hin;
    apply elem_of_cons in Hin as [Hin|Hin]; [discriminate|by apply elem_of_nil in Hin]].
  specialize (Hm1 eq_refl).
  destruct (ln_sfn (curdir ++ ["board"]) (PORT_DIR curdir ++ ["boards"; "ribbit"]) m1)
    as [[ok2 ds2] m2] eqn:E2.
  assert (Hm2 : m2 !! frozen_content_c curdir = None).
  { destruct (ln_sfn_effect _ _ _ _ _ _ E2) as [->|[->| ->]]; [exact Hm1|..];
      rewrite lookup_insert_ne; try exact Hm1;
      rewrite ?basename_snoc; paths_differ. }
  destruct ok2; simpl;
    [|split; [|discriminate]; intros m_in Hin;
      repeat (apply elem_of_cons in Hin as [Hin|Hin]; [try discriminate|]);
      by apply elem_of_nil in Hin].
  destruct (toolchain (PORT_DIR curdir) (toolchain_vars curdir) m2) as [ok3 m3] eqn:E3.
  destruct ok3; simpl.
  - split; [|intros _; exists m2; apply elem_of_cons; right; apply elem_of_cons; right;
             apply elem_of_cons; left; reflexivity].
    intros m_in Hin.
    repeat (apply elem_of_cons in Hin as [Hin|Hin]; [try discriminate|]);
      [|by apply elem_of_nil in Hin].
    injection Hin as <-. rewrite E3. split; [exact Hm2|split; reflexivity].
  - split; [|discriminate]. intros m_in Hin.
    repeat (apply elem_of_cons in Hin as [Hin|Hin]; [try discriminate|]);
      [|by apply elem_of_nil in Hin].
    injection Hin as <-. rewrite E3. split; [exact Hm2|split; reflexivity].
Qed.



Lemma snoc_ne_self (d : path) (x : string) : d <> d ++ [x].
Proof.
  intros H. apply (f_equal length) in H. rewrite length_app in H. simpl in H. lia.
Qed.


Lemma bundle_trace_cmds (curdir : path) (toolchain : toolchain_t) (d : path)
    (m : fs) (c : cmd) (m' : fs) :
  (c, m') ∈ make_trace (bundle curdir toolchain d m) ->
  c = MkdirP d \/ c = Cp (artifact_srcs curdir) d.
Proof.
  unfold bundle, bundle_cmds. simpl.
  destruct (mkdir_p d m) as [[[] ds1] m1]; simpl;
    [destruct (cp (artifact_srcs curdir) d m1) as [[[] ds2] m2]; simpl|];
    intros H; repeat (apply elem_of_cons in H as [H|H]; [injection H as -> _; auto|]);
    by apply elem_of_nil in H.
Qed.

(** The whole recipe: the toolchain runs on a file system without
    [frozen_content.c]; when it succeeds the rest of the build is the
    bundling of its output into [./firmware]; and a successful build went
    through a successful toolchain run. *)
Lemma make_build_cases (curdir : path) (toolchain : toolchain_t) (m0 : fs) :
  let r := make_build curdir toolchain m0 in
  (forall m_in, (toolchain_cmd curdir, m_in) ∈ make_trace r ->
     m_in !! frozen_content_c curdir = None) /\
  (forall m_in m_tc, (toolchain_cmd curdir, m_in) ∈ make_trace r ->
     toolchain (PORT_DIR curdir) (toolchain_vars curdir) m_in = (true, m_tc) ->
     let b := bundle curdir toolchain (firmware_dir curdir) m_tc in
     make_ok r = make_ok b /\ make_fs r = make_fs b /\
     (forall x, x ∈ make_diags b -> x ∈ make_diags r) /\
     make_trace b ⊆ make_trace r) /\
  (make_ok r = true -> exists m_in m_tc,
     (toolchain_cmd curdir, m_in) ∈ make_trace r /\
     toolchain (PORT_DIR curdir) (toolchain_vars curdir) m_in = (true, m_tc) /\
     make_ok (bundle curdir toolchain (firmware_dir curdir) m_tc) = true).
Proof.
  unfold make_build. rewrite build_recipe_split.
  destruct (prefix_run curdir toolchain m0) as [Htc Hok].
  set (r1 := run_recipe toolchain (prefix_cmds curdir) m0) in *.
  destruct (make_ok r1) eqn:Ep.
  - rewrite (run_recipe_app_ok _ _ _ _ Ep). cbn [make_ok make_fs make_diags make_trace].
    change (run_recipe toolchain (bundle_cmds curdir (firmware_dir curdir)))
      with (bundle curdir toolchain (firmware_dir curdir)).
    fold r1.
    assert (Hin : forall m_in, (toolchain_cmd curdir, m_in) ∈
              make_trace r1 ++ make_trace (bundle curdir toolchain (firmware_dir curdir) (make_fs r1)) ->
              (toolchain_cmd curdir, m_in) ∈ make_trace r1).
    { intros m_in H. apply elem_of_app in H as [H|H]; [exact H|].
      apply bundle_trace_cmds in H as [H|H]; discriminate. }
    split; [|split].
    + intros m_in H. exact (proj1 (Htc m_in (Hin m_in H))).
    + intros m_in m_tc H Ht. destruct (Htc m_in (Hin m_in H)) as (_ & _ & Hfs).
      rewrite Ht in Hfs. simpl in Hfs. rewrite Hfs.
      split; [reflexivity|]. split; [reflexivity|].
      split; [intros x Hx; apply elem_of_app; by right|].
      intros x Hx. apply elem_of_app. by right.
    + intros Hb. destruct (Hok eq_refl) as [m_in Hm].
      destruct (Htc m_in Hm) as (_ & Hok1 & Hfs).
      exists m_in, (make_fs r1). split; [apply elem_of_app; by left|].
      split; [|exact Hb].
      rewrite Hfs.
      destruct (toolchain (PORT_DIR curdir) (toolchain_vars curdir) m_in) as [o f].
      simpl in Hok1 |- *. by rewrite <- Hok1.
  - rewrite (run_recipe_app_fail _ _ _ _ Ep). fold r1. rewrite Ep.
    split; [|split].
    + intros m_in H. exact (proj1 (Htc m_in H)).
    + intros m_in m_tc H Ht. destruct (Htc m_in H) as (_ & Hok1 & _).
      rewrite Ht in Hok1. discriminate.
    + discriminate.
Qed.

(** A failing [mkdir -p] says which path is in the way. *)
Lemma mkdir_p_from_fail (done_ rest : path) (m m' : fs) ds :
  mkdir_p_from done_ rest m = (false, ds, m') -> exists p, MkdirFileExists p ∈ ds.
Proof.
  revert done_ m. induction rest as [|x rest IH]; intros done_ m E; simpl in E;
    [discriminate|].
  destruct (m !! (done_ ++ [x])) as [e|]; [destruct (dir_at m (done_ ++ [x]))|];
    try (eapply IH; exact E).
  injection E as <- _. exists (done_ ++ [x]). by apply list_elem_of_singleton.
Qed.

(** The bundling lines never remove a regular file. *)
Lemma bundle_keeps_files (curdir : path) (toolchain : toolchain_t) (d : path) (m : fs) :
  forall p c, m !! p = Some (File c) ->
  exists c', make_fs (bundle curdir toolchain d m) !! p = Some (File c').
Proof.
  intros p c Hp. unfold bundle, bundle_cmds. simpl.
  destruct (mkdir_p d m) as [[ok1 ds1] m1] eqn:E1.
  pose proof (mkdir_p_from_effect _ _ _ _ _ _ E1 p) as Hmk.
  assert (Hp1 : m1 !! p = Some (File c)) by (destruct Hmk as [|(? & _)]; congruence).
  destruct ok1; simpl; [|eauto].
  unfold cp. destruct (dir_at m1 d); [|simpl; eauto].
  destruct (cp_each (artifact_srcs curdir) d m1) as [[ok2 ds2] m2] eqn:E2.
  destruct (cp_each_keeps_files _ _ _ _ _ _ E2 p c Hp1) as [c' Hc'].
  destruct ok2; simpl; eauto.
Qed.

(** Bundling into [./firmware] without an application image fails; the
    diagnostic names the image unless [./firmware] could not be made a
    directory first. *)
Lemma bundle_missing_app (curdir : path) (toolchain : toolchain_t) (m : fs) :
  m !! micropython_bin curdir = None ->
  let b := bundle curdir toolchain (firmware_dir curdir) m in
  make_ok b = false /\
  (CpCannotStat (micropython_bin curdir) ∈ make_diags b \/
   (exists p, MkdirFileExists p ∈ make_diags b) \/
   CpTargetNotADirectory (firmware_dir curdir) ∈ make_diags b).
Proof.
  intros Hm. unfold bundle, bundle_cmds. simpl.
  destruct (mkdir_p (firmware_dir curdir) m) as [[ok1 ds1] m1] eqn:E1.
  assert (Hm1 : m1 !! micropython_bin curdir = None).
  { destruct (mkdir_p_from_effect _ _ _ _ _ _ E1 (micropython_bin curdir))
      as [Heq|(_ & _ & k & Hk)]; [congruence|].
    exfalso. revert Hk. norm_paths. intros Hk.
    apply List.app_inv_head in Hk. discriminate. }
  destruct ok1; simpl.
  - unfold cp.
    destruct (cp_each (artifact_srcs curdir) (firmware_dir curdir) m1)
      as [[ok2 ds2] m2] eqn:E2.
    destruct (dir_at m1 (firmware_dir curdir)); simpl.
    +       destruct (cp_each_missing _ _ _ _ _ _ (micropython_bin curdir) E2) as [-> Hin].
      * unfold artifact_srcs. rewrite !elem_of_cons. tauto.
      * exact Hm1.
      * intros s' Hs'. unfold artifact_srcs in Hs'.
        rewrite !elem_of_cons, elem_of_nil in Hs'.
        destruct Hs' as [->|[->|[->|[->|[]]]]];
          unfold basename; rewrite ?rev_app_distr; simpl; paths_differ.
      * split; [reflexivity|]. left. apply elem_of_app; right. apply elem_of_app; by left.
    + split; [reflexivity|]. right; right. apply elem_of_app; right.
      apply elem_of_cons; by left.
  - split; [reflexivity|]. right; left.
    destruct (mkdir_p_from_fail _ _ _ _ _ E1) as [p Hp]. exists p.
    apply elem_of_app; by left.
Qed.

(** When the Build step fails, no later step runs. *)
Lemma build_failure_stops_job (exec : action -> bool) (ref : string) :
  exec RunBuild = false ->
  (forall e, GoliothUpload e ∉ executed (run_job exec ref)) /\
  UploadArtifact ∉ executed (run_job exec ref).
Proof.
  intros Hb. unfold run_job. case_gates ref; step_job exec; try congruence;
    (split; [intros e|]); rewrite ?elem_of_cons, ?elem_of_nil;
    intuition discriminate.
Qed.


















Lemma parent_is_dir_app (m : fs) (q : path) (x y : string) :
  parent_is_dir m (q ++ [x; y]) = dir_at m (q ++ [x]).
Proof.
  unfold parent_is_dir. rewrite removelast_app by discriminate. simpl.
  destruct q; reflexivity.
Qed.

Import Scenarios.







(** Claim C5.  In every run of [make build], whatever the file system
    it starts from and whatever the toolchain does, the toolchain is
    started on a file system with no [frozen_content.c] in the build
    directory. *)
Theorem toolchain_starts_without_frozen_content (curdir : path)
    (toolchain : toolchain_t) (m0 m_in : fs) :
  (toolchain_cmd curdir, m_in) ∈ make_trace (make_build curdir toolchain m0) ->
  m_in !! frozen_content_c curdir = None.
Proof.
  destruct (make_build_cases curdir toolchain m0) as (Hfrozen & _ & _).
  exact (Hfrozen m_in).
Qed.

Lemma toolchain_starts_without_frozen_content_witness :
  fs_stale !! frozen_content_c ci_curdir = Some (File [Byte.x53]) /\
  (toolchain_cmd ci_curdir, fs_stale_at_toolchain) ∈
    make_trace (make_build ci_curdir idf_full fs_stale) /\
  fs_stale_at_toolchain !! frozen_content_c ci_curdir = None.
Proof.
  assert (Hin : (toolchain_cmd ci_curdir, fs_stale_at_toolchain) ∈
                  make_trace (make_build ci_curdir idf_full fs_stale))
    by (apply (bool_decide_unpack _ (dec:=list_elem_of_dec _ _));
        vm_compute; exact I).
  split; [reflexivity|]. split; [exact Hin|].
  exact (toolchain_starts_without_frozen_content ci_curdir idf_full fs_stale _ Hin).
Defined.

(** Claim C6 (as amended).  When the toolchain exits 0 but leaves no
    [micropython.bin] in the build directory, [make build] fails; its
    diagnostics name the missing [micropython.bin] (unless [mkdir -p]
    already failed or [./firmware] is not a directory); the CI job then
    runs neither Golioth upload nor the artifact upload.  Nothing is
    cleaned up: every regular file present when bundling started is
    still a regular file afterwards. *)
Theorem missing_app_image_fails_build (curdir : path) (toolchain : toolchain_t)
    (m0 m_in m_tc : fs) (exec : action -> bool) (ref : string) :
  (toolchain_cmd curdir, m_in) ∈ make_trace (make_build curdir toolchain m0) ->
  toolchain (PORT_DIR curdir) (toolchain_vars curdir) m_in = (true, m_tc) ->
  m_tc !! micropython_bin curdir = None ->
  exec RunBuild = make_ok (make_build curdir toolchain m0) ->
  make_ok (make_build curdir toolchain m0) = false /\
  (CpCannotStat (micropython_bin curdir) ∈ make_diags (make_build curdir toolchain m0) \/
   (exists p, MkdirFileExists p ∈ make_diags (make_build curdir toolchain m0)) \/
   CpTargetNotADirectory (firmware_dir curdir) ∈ make_diags (make_build curdir toolchain m0)) /\
  (forall e, GoliothUpload e ∉ executed (run_job exec ref)) /\
  (UploadArtifact ∉ executed (run_job exec ref)) /\
  (forall p c, m_tc !! p = Some (File c) ->
     exists c', make_fs (make_build curdir toolchain m0) !! p = Some (File c')).
Proof.
  intros Hin Ht Hnone Hexec.
  destruct (make_build_cases curdir toolchain m0) as (_ & Hafter & _).
  destruct (Hafter m_in m_tc Hin Ht) as (Hok & Hfs & Hdiags & _).
  destruct (bundle_missing_app curdir toolchain m_tc Hnone) as (Hbok & Hd).
  assert (Hfail : make_ok (make_build curdir toolchain m0) = false)
    by (rewrite Hok; exact Hbok).
  split; [exact Hfail|]. split.
  { destruct Hd as [H|[[p H]|H]]; [left|right; left; exists p|right; right];
      apply Hdiags; exact H. }
  rewrite Hfail in Hexec.
  destruct (build_failure_stops_job exec ref Hexec) as (Hg & Ha).
  split; [exact Hg|]. split; [exact Ha|].
  intros p c Hp. rewrite Hfs. exact (bundle_keeps_files _ _ _ _ p c Hp).
Qed.

Lemma missing_app_image_fails_build_witness :
  (toolchain_cmd ci_curdir, fs_stale_at_toolchain) ∈
    make_trace (make_build ci_curdir idf_no_app fs_stale) /\
  make_ok (make_build ci_curdir idf_no_app fs_stale) = false.
Proof.
  assert (Hin : (toolchain_cmd ci_curdir, fs_stale_at_toolchain) ∈
                  make_trace (make_build ci_curdir idf_no_app fs_stale))
    by (apply (bool_decide_unpack _ (dec:=list_elem_of_dec _ _));
        vm_compute; exact I).
  split; [exact Hin|].
  refine (proj1 (missing_app_image_fails_build ci_curdir idf_no_app fs_stale
            fs_stale_at_toolchain fs_stale_no_app
            (ci_exec (make_build ci_curdir idf_no_app fs_stale)) "refs/heads/main"
            Hin _ _ _)); reflexivity.
Defined.

(** Claim C6 fails as stated: after the failed build on [fs_stale],
    [./firmware] holds all four image names, the three fresh images
    beside the application image of an earlier build. *)
Lemma missing_app_leaves_complete_looking_firmware :
  make_ok (make_build ci_curdir idf_no_app fs_stale) = false /\
  make_diags (make_build ci_curdir idf_no_app fs_stale) =
    [CpCannotStat (micropython_bin ci_curdir); MakeRecipeFailed] /\
  List.map (fun n => make_fs (make_build ci_curdir idf_no_app fs_stale) !!
                       (firmware_dir ci_curdir ++ [n]))
    ["bootloader.bin"; "partition-table.bin"; "ota_data_initial.bin"; "micropython.bin"] =
    [Some (File [Byte.x01]); Some (File [Byte.x02]); Some (File [Byte.x03]);
     Some (File [Byte.xaa])].
Proof. vm_compute. split; [reflexivity|split; reflexivity]. Qed.






(* ===================================================================== *)
(** * Further facts about the workflow and the Makefile targets *)
(* ===================================================================== *)

Import Targets.

(** The pull-request ref never passes an upload gate. *)
(** A pull-request run ([github.ref] is [refs/pull/...]) selects no
    deployment target, and no Golioth upload step runs in it, whatever
    the outcome of the other steps. *)
Theorem pull_request_refs_no_upload (x : string) (exec : action -> bool) :
  resolve (String.append "refs/pull/" x) = [] /\
  (forall e, GoliothUpload e ∉ executed (run_job exec (String.append "refs/pull/" x))).
Proof.
  assert (G1 : Expr.str_eq (String.append "refs/pull/" x) "refs/heads/main" = false)
    by reflexivity.
  assert (G2 : Expr.startsWith (String.append "refs/pull/" x) "refs/tags/v" = false)
    by reflexivity.
  split; [rewrite resolve_eq, G1, G2; reflexivity|].
  unfold run_job. step_job exec; intros e; apply golioth_not_in; reflexivity.
Qed.

(** A Golioth upload or the artifact upload runs only after the
    checkout, the submodule fetch, the tests and the build all ran and
    succeeded. *)
Theorem uploads_follow_successful_build (exec : action -> bool) (ref : string) :
  ((exists e, GoliothUpload e ∈ executed (run_job exec ref)) \/
   UploadArtifact ∈ executed (run_job exec ref)) ->
  Forall (fun a => exec a = true) [Checkout; FetchSubmodules; RunTest; RunBuild].
Proof.
  rewrite !Forall_cons, Forall_nil.
  unfold run_job. case_gates ref; step_job exec;
    setoid_rewrite list_elem_of_In; simpl; intuition (try congruence);
    match goal with H : exists _, _ |- _ => destruct H as [? H]; intuition congruence end.
Qed.

(** The [firmware] artifact is uploaded exactly when the first four
    steps succeed and so does the Golioth upload the ref selects (if
    any): a failed Golioth upload also skips the artifact upload. *)
Theorem artifact_upload_iff (exec : action -> bool) (ref : string) :
  UploadArtifact ∈ executed (run_job exec ref) <->
  Forall (fun a => exec a = true) [Checkout; FetchSubmodules; RunTest; RunBuild] /\
  Forall (fun e => exec (GoliothUpload e) = true) (resolve ref).
Proof.
  rewrite resolve_eq, !Forall_cons, !Forall_nil.
  unfold run_job. case_gates ref; rewrite ?G1, ?G2; simpl;
    rewrite ?Forall_cons, ?Forall_nil; step_job exec;
    rewrite list_elem_of_In; simpl; intuition congruence.
Qed.

(** When [frozen_content.c] is a directory, [rm -f] fails on it and
    [make build] stops there: the toolchain never runs and the file
    system is unchanged. *)
Theorem build_stops_on_frozen_dir (curdir : path) (toolchain : toolchain_t) (m0 : fs) :
  m0 !! frozen_content_c curdir = Some Dir ->
  make_build curdir toolchain m0 =
    {| make_ok := false;
       make_diags := [RmIsADirectory (frozen_content_c curdir); MakeRecipeFailed];
       make_fs := m0;
       make_trace := [(RmF (frozen_content_c curdir), m0)] |}.
Proof.
  intros H. unfold make_build, build_recipe. cbn [app run_recipe exec_cmd].
  unfold rm_f. rewrite H. reflexivity.
Qed.

(** When [frozen_content.c] is not a directory, the [ln -sfn] line
    decides whether the toolchain runs.  If [boards/ribbit] in the port
    is a real directory, the link is made inside it as
    [boards/ribbit/board], unless a directory of that name is there: then
    [ln] fails and the toolchain never runs.  Otherwise [boards/ribbit]
    becomes the link to [CURDIR/board] when the port's [boards] is a
    real directory, and [ln] fails ("No such file or directory") when
    [boards] is absent.  When the toolchain runs, nothing else has changed apart from
    the removal of [frozen_content.c]. *)
Theorem toolchain_sees_board_link (curdir : path) (toolchain : toolchain_t) (m0 : fs) :
  m0 !! frozen_content_c curdir <> Some Dir ->
  (m0 !! (PORT_DIR curdir ++ ["boards"; "ribbit"]) = Some Dir ->
   m0 !! (PORT_DIR curdir ++ ["boards"; "ribbit"; "board"]) <> Some Dir ->
   exists m_in,
     (toolchain_cmd curdir, m_in) ∈ make_trace (make_build curdir toolchain m0) /\
     m_in !! (PORT_DIR curdir ++ ["boards"; "ribbit"]) = Some Dir /\
     m_in !! (PORT_DIR curdir ++ ["boards"; "ribbit"; "board"]) =
       Some (Symlink (curdir ++ ["board"])) /\
     (forall p, p <> frozen_content_c curdir ->
        p <> PORT_DIR curdir ++ ["boards"; "ribbit"; "board"] -> m_in !! p = m0 !! p)) /\
  (m0 !! (PORT_DIR curdir ++ ["boards"; "ribbit"]) <> Some Dir ->
   m0 !! (PORT_DIR curdir ++ ["boards"]) = Some Dir ->
   exists m_in,
     (toolchain_cmd curdir, m_in) ∈ make_trace (make_build curdir toolchain m0) /\
     m_in !! (PORT_DIR curdir ++ ["boards"; "ribbit"]) = Some (Symlink (curdir ++ ["board"])) /\
     (forall p, p <> frozen_content_c curdir ->
        p <> PORT_DIR curdir ++ ["boards"; "ribbit"] -> m_in !! p = m0 !! p)) /\
  (m0 !! (PORT_DIR curdir ++ ["boards"; "ribbit"]) = Some Dir ->
   m0 !! (PORT_DIR curdir ++ ["boards"; "ribbit"; "board"]) = Some Dir ->
   make_ok (make_build curdir toolchain m0) = false /\
   make_diags (make_build curdir toolchain m0) =
     [LnCannotOverwriteDirectory (PORT_DIR curdir ++ ["boards"; "ribbit"; "board"]);
      MakeRecipeFailed] /\
   forall m_in, (toolchain_cmd curdir, m_in) ∉ make_trace (make_build curdir toolchain m0)) /\
  (m0 !! (PORT_DIR curdir ++ ["boards"; "ribbit"]) <> Some Dir ->
   m0 !! (PORT_DIR curdir ++ ["boards"]) = None ->
   make_ok (make_build curdir toolchain m0) = false /\
   make_diags (make_build curdir toolchain m0) =
     [LnNoSuchFile (PORT_DIR curdir ++ ["boards"; "ribbit"]); MakeRecipeFailed] /\
   forall m_in, (toolchain_cmd curdir, m_in) ∉ make_trace (make_build curdir toolchain m0)).
Proof.
  intros Hf.
  set (boards := PORT_DIR curdir ++ ["boards"]).
  set (link := PORT_DIR curdir ++ ["boards"; "ribbit"]).
  set (lb := PORT_DIR curdir ++ ["boards"; "ribbit"; "board"]).
  assert (Hlf : link <> frozen_content_c curdir) by (unfold link; paths_differ).
  assert (Hbf : lb <> frozen_content_c curdir) by (unfold lb; paths_differ).
  assert (Hpf : boards <> frozen_content_c curdir) by (unfold boards; paths_differ).
  assert (Hlb : link ++ ["board"] = lb)
    by (unfold link, lb; rewrite <- app_assoc; reflexivity).
  assert (Hne : link <> lb) by (rewrite <- Hlb; apply snoc_ne_self).
  assert (Erm : rm_f (frozen_content_c curdir) m0 =
                (true, [], delete (frozen_content_c curdir) m0))
    by (unfold rm_f; destruct (m0 !! _) as [[]|]; congruence).
  set (m1 := delete (frozen_content_c curdir) m0).
  assert (Hm1 : forall p, p <> frozen_content_c curdir -> m1 !! p = m0 !! p)
    by (intros p Hp; apply lookup_delete_ne; congruence).
  assert (Hpar : parent_is_dir m1 link = dir_at m1 boards)
    by (unfold link, boards; apply parent_is_dir_app).
  unfold make_build, build_recipe, board_link_cmd. fold link.
  cbn [app run_recipe exec_cmd]. rewrite Erm. fold m1.
  unfold ln_sfn. rewrite basename_snoc, Hlb, Hpar, (Hm1 link Hlf), (Hm1 lb Hbf).
  split; [|split; [|split]].
  - intros Hd Hnd. rewrite Hd.
    destruct (m0 !! lb) as [[]|] eqn:Elb; [| congruence | |]; cbv beta iota zeta;
      match goal with
      | |- context [exec_cmd ?t (toolchain_cmd ?c) ?m] =>
          destruct (exec_cmd t (toolchain_cmd c) m) as [[[] ds3] m3]
      end;
      cbv beta iota zeta; cbn [make_trace];
      (eexists; split; [apply elem_of_cons; right; apply elem_of_cons; right;
                        apply elem_of_cons; left; reflexivity|]);
      rewrite lookup_insert_eq, lookup_insert_ne, Hm1 by congruence;
      (split; [exact Hd|split; [reflexivity|]]);
      intros p Hp1 Hp2; rewrite lookup_insert_ne by congruence; apply Hm1, Hp1.
  - intros Hnd Hb. rewrite (dir_at_dir m1 boards) by (rewrite Hm1 by exact Hpf; exact Hb).
    destruct (m0 !! link) as [[]|] eqn:El; [| congruence | |]; cbv beta iota zeta;
      match goal with
      | |- context [exec_cmd ?t (toolchain_cmd ?c) ?m] =>
          destruct (exec_cmd t (toolchain_cmd c) m) as [[[] ds3] m3]
      end;
      cbv beta iota zeta; cbn [make_trace];
      (eexists; split; [apply elem_of_cons; right; apply elem_of_cons; right;
                        apply elem_of_cons; left; reflexivity|]);
      rewrite lookup_insert_eq; (split; [reflexivity|]);
      intros p Hp1 Hp2; rewrite lookup_insert_ne by congruence; apply Hm1, Hp1.
  - intros Hd Hbd. rewrite Hd, Hbd. cbn.
    split; [reflexivity|]. split; [reflexivity|].
    intros m_in Hin.
    repeat (apply elem_of_cons in Hin as [Hin|Hin]; [discriminate|]).
    by apply elem_of_nil in Hin.
  - intros Hnd Hb. rewrite (dir_at_none m1 boards) by (rewrite Hm1 by exact Hpf; exact Hb).
    destruct (m0 !! link) as [[]|] eqn:El; [| congruence | |]; cbn;
      (split; [reflexivity|]); (split; [reflexivity|]);
      intros m_in Hin;
      repeat (apply elem_of_cons in Hin as [Hin|Hin]; [discriminate|]);
      by apply elem_of_nil in Hin.
Qed.

(** [make test] without the interpreter runs the unix port's make once,
    and the prerequisite is met exactly when that make succeeds. *)
Lemma make_test_missing (curdir : path) (toolchain : toolchain_t)
    (interp : path -> list string -> fs -> bool) (m : fs) :
  target_exists m (unix_micropython curdir) = false ->
  make_trace (test_prereq (make_test curdir toolchain interp m)) =
    [(unix_build_cmd curdir, m)] /\
  make_ok (test_prereq (make_test curdir toolchain interp m)) =
    (toolchain (MP_DIR curdir ++ ["ports"; "unix"])
       [("FROZEN_MANIFEST", render (curdir ++ ["manifest-unix.py"]))] m).1.
Proof.
  intros H. unfold make_test, make_unix. rewrite H.
  unfold unix_build_cmd. cbn [run_recipe exec_cmd].
  destruct (toolchain _ _ m) as [[] m']; simpl; [|split; reflexivity].
  destruct (read_src m' _); split; reflexivity.
Qed.


(** What [make clean] leaves at a path. *)
Lemma make_clean_lookup (curdir : path) (m : fs) (p : path) :
  make_clean curdir m !! p =
  if bool_decide (BUILD_DIR curdir `prefix_of` p \/ unix_build_dir curdir `prefix_of` p)
  then None else m !! p.
Proof.
  unfold make_clean, rm_rf. rewrite !map_lookup_filter.
  destruct (m !! p) as [n|]; simpl; [|by case_bool_decide].
  repeat case_guard; simpl; repeat case_guard; case_bool_decide; simpl in *; naive_solver.
Qed.



(** After [make clean], [make test] always runs the unix port's make,
    on the cleaned tree. *)
Theorem clean_then_test_rebuilds_interpreter (curdir : path) (toolchain : toolchain_t)
    (interp : path -> list string -> fs -> bool) (m : fs) :
  make_trace (test_prereq (make_test curdir toolchain interp (make_clean curdir m))) =
    [(unix_build_cmd curdir, make_clean curdir m)].
Proof.
  apply make_test_missing.
  unfold target_exists. rewrite read_src_none; [reflexivity|].
  rewrite make_clean_lookup. rewrite bool_decide_true; [reflexivity|].
  right. unfold unix_micropython, unix_build_dir. exists ["micropython"].
  rewrite <- app_assoc. reflexivity.
Qed.



(** Two images do not overlap, in arithmetic terms. *)
Lemma overlaps_false (a b : Z * list Byte.byte) :
  overlaps a b = false <->
  ~ (0 < Z.of_nat (length a.2) /\ 0 < Z.of_nat (length b.2) /\
     a.1 < b.1 + Z.of_nat (length b.2) /\ b.1 < a.1 + Z.of_nat (length a.2))%Z.
Proof.
  unfold overlaps. rewrite <- not_true_iff_false, !andb_true_iff, !Z.ltb_lt.
  tauto.
Qed.

(** Whenever esptool gets the images, they sit at 0x0, 0x8000, 0xd000
    and 0x10000, and (all four being non-empty) no two of them overlap
    exactly when the bootloader is at most 0x8000 bytes, the partition
    table at most 0x5000 and the OTA data at most 0x3000. *)
Theorem flash_layout_disjoint (curdir : path) (m : fs)
    (imgs : list (Z * list Byte.byte)) :
  read_images curdir m = Some imgs ->
  exists c1 c2 c3 c4,
    imgs = [(0x0, c1); (0x8000, c2); (0xd000, c3); (0x10000, c4)]%Z /\
    (c1 <> [] -> c2 <> [] -> c3 <> [] -> c4 <> [] ->
     (disjoint_images imgs = true <->
      (Z.of_nat (length c1) <= 0x8000 /\ Z.of_nat (length c2) <= 0x5000 /\
       Z.of_nat (length c3) <= 0x3000)%Z)).
Proof.
  unfold read_images, flash_args. intros H.
  apply mapM_Some in H.
  inversion H as [|a1 y1 l1 k1 R1 H1]; subst.
  inversion H1 as [|a2 y2 l2 k2 R2 H2]; subst.
  inversion H2 as [|a3 y3 l3 k3 R3 H3]; subst.
  inversion H3 as [|a4 y4 l4 k4 R4 H4]; subst.
  inversion H4; subst.
  unfold read_image in R1, R2, R3, R4; simpl in R1, R2, R3, R4.
  repeat match goal with
         | R : match ?x with _ => _ end = Some _ |- _ =>
             destruct x; try discriminate R; injection R as <-
         end.
  eexists _, _, _, _. split; [reflexivity|].
  intros N1 N2 N3 N4.
  repeat match goal with
         | N : ?c <> [] |- _ =>
             assert (0 < Z.of_nat (length c))%Z by (destruct c; [congruence|simpl; lia]);
             clear N
         end.
  cbn [disjoint_images forallb].
  rewrite !andb_true_r, !andb_true_iff, !negb_true_iff, !overlaps_false.
  cbn [fst snd]. split; intros; lia.
Qed.

Lemma uploads_follow_successful_build_witness :
  (exists e, GoliothUpload e ∈ executed (run_job (fun _ => true) "refs/heads/main")) /\
  Forall (fun a => (fun _ => true) a = true) [Checkout; FetchSubmodules; RunTest; RunBuild].
Proof.
  assert (H : exists e, GoliothUpload e ∈ executed (run_job (fun _ => true) "refs/heads/main"))
    by (exists main_env; apply list_elem_of_In; simpl; tauto).
  split; [exact H|].
  exact (uploads_follow_successful_build (fun _ => true) "refs/heads/main" (or_introl H)).
Defined.

Lemma build_stops_on_frozen_dir_witness :
  fs_frozen_dir !! frozen_content_c ci_curdir = Some Dir /\
  make_ok (make_build ci_curdir idf_full fs_frozen_dir) = false.
Proof.
  assert (H : fs_frozen_dir !! frozen_content_c ci_curdir = Some Dir) by reflexivity.
  split; [exact H|].
  rewrite (build_stops_on_frozen_dir ci_curdir idf_full fs_frozen_dir H). reflexivity.
Defined.

Lemma toolchain_sees_board_link_witness :
  fs_board_dir !! (PORT_DIR ci_curdir ++ ["boards"; "ribbit"]) = Some Dir /\
  (exists m_in,
     (toolchain_cmd ci_curdir, m_in) ∈ make_trace (make_build ci_curdir idf_full fs_board_dir) /\
     m_in !! (PORT_DIR ci_curdir ++ ["boards"; "ribbit"; "board"]) =
       Some (Symlink (ci_curdir ++ ["board"]))) /\
  make_diags (make_build ci_curdir idf_full ∅) =
    [LnNoSuchFile (PORT_DIR ci_curdir ++ ["boards"; "ribbit"]); MakeRecipeFailed].
Proof.
  assert (Hd : fs_board_dir !! (PORT_DIR ci_curdir ++ ["boards"; "ribbit"]) = Some Dir)
    by reflexivity.
  assert (Hf : fs_board_dir !! frozen_content_c ci_curdir <> Some Dir)
    by (vm_compute; discriminate).
  assert (Hb : fs_board_dir !! (PORT_DIR ci_curdir ++ ["boards"; "ribbit"; "board"]) <> Some Dir)
    by (vm_compute; discriminate).
  assert (Hf0 : (∅ : fs) !! frozen_content_c ci_curdir <> Some Dir)
    by (vm_compute; discriminate).
  assert (Hl0 : (∅ : fs) !! (PORT_DIR ci_curdir ++ ["boards"; "ribbit"]) <> Some Dir)
    by (vm_compute; discriminate).
  assert (Hb0 : (∅ : fs) !! (PORT_DIR ci_curdir ++ ["boards"]) = None) by reflexivity.
  split; [exact Hd|]. split.
  - destruct (proj1 (toolchain_sees_board_link ci_curdir idf_full fs_board_dir Hf) Hd Hb)
      as (m_in & Hin & _ & Hl & _).
    exists m_in. split; [exact Hin|exact Hl].
  - exact (proj1 (proj2 (proj2 (proj2 (proj2 (toolchain_sees_board_link ci_curdir idf_full ∅ Hf0)))
                   Hl0 Hb0))).
Defined.



Lemma flash_layout_disjoint_witness :
  read_images ci_curdir (make_fs (make_build ci_curdir idf_full fs_checkout)) =
    Some [(0x0, [Byte.x01]); (0x8000, [Byte.x02]); (0xd000, [Byte.x03]);
          (0x10000, [Byte.x10; Byte.x11])]%Z /\
  disjoint_images [(0x0, [Byte.x01]); (0x8000, [Byte.x02]); (0xd000, [Byte.x03]);
                   (0x10000, [Byte.x10; Byte.x11])]%Z = true.
Proof.
  assert (H : read_images ci_curdir (make_fs (make_build ci_curdir idf_full fs_checkout)) =
    Some [(0x0, [Byte.x01]); (0x8000, [Byte.x02]); (0xd000, [Byte.x03]);
          (0x10000, [Byte.x10; Byte.x11])]%Z) by (vm_compute; reflexivity).
  split; [exact H|].
  destruct (flash_layout_disjoint ci_curdir _ _ H) as (c1 & c2 & c3 & c4 & Heq & Hd).
  injection Heq as <- <- <- <-.
  apply (proj2 (Hd ltac:(discriminate) ltac:(discriminate) ltac:(discriminate)
                   ltac:(discriminate))).
  cbn [length Z.of_nat]. lia.
Defined.
